(** * Ashley chat front-end: the streaming client of [static/app.js]

    A shallow embedding of the browser script [src/Ashley/static/app.js]
    (and of its older twin [src/unnamed/part_000], which has no loading
    overlay), together with the parts of the web platform the script
    calls: ECMAScript strings and [String.prototype.trim], [JSON.stringify]
    on the request payload, the Fetch [Response] surface, and the
    [TextDecoder] of the WHATWG Encoding Standard.

    JavaScript strings are sequences of UTF-16 code units ([list N]); byte
    chunks are [list byte].  One call of [send] is run against a [world]
    that says how the network answers; the run yields the final page, the
    completion of the call and the ordered list of effects it performed. *)

From Stdlib Require Import List NArith Bool Lia.
From Stdlib.Strings Require Import String Ascii Byte.
Import ListNotations.

Open Scope N_scope.

(* ================================================================== *)
(** ** ECMAScript strings *)

Module JsString.

(** A string value: a finite sequence of 16-bit code units. *)
Definition jsstring := list N.

(** A string literal of the script (ASCII only in this program). *)
Definition lit (s : string) : jsstring :=
  map N_of_ascii (list_ascii_of_string s).

Fixpoint eqb (a b : jsstring) : bool :=
  match a, b with
  | [], [] => true
  | x :: a', y :: b' => (x =? y) && eqb a' b'
  | _, _ => false
  end.

(** [!s] for a string: only the empty string is falsy. *)
Definition truthy (s : jsstring) : bool :=
  match s with [] => false | _ :: _ => true end.

(** WhiteSpace and LineTerminator code points of ECMA-262 (all in the
    BMP), the set stripped by [trim]. *)
Definition is_white_space (c : N) : bool :=
  (c =? 0x09) || (c =? 0x0A) || (c =? 0x0B) || (c =? 0x0C) || (c =? 0x0D)
  || (c =? 0x20) || (c =? 0xA0) || (c =? 0x1680)
  || ((0x2000 <=? c) && (c <=? 0x200A))
  || (c =? 0x2028) || (c =? 0x2029) || (c =? 0x202F) || (c =? 0x205F)
  || (c =? 0x3000) || (c =? 0xFEFF).

Fixpoint trimStart (s : jsstring) : jsstring :=
  match s with
  | [] => []
  | c :: s' => if is_white_space c then trimStart s' else s
  end.

Definition trimEnd (s : jsstring) : jsstring := rev (trimStart (rev s)).

(** [String.prototype.trim]. *)
Definition trim (s : jsstring) : jsstring := trimEnd (trimStart s).

(** Decimal digits of a non-negative integer, as [Number::toString]
    prints it ([fuel] bounds the number of digits). *)
Fixpoint digits (fuel : nat) (n : N) (acc : jsstring) : jsstring :=
  match fuel with
  | O => acc
  | S fuel' =>
      let acc' := (48 + n mod 10) :: acc in
      if n / 10 =? 0 then acc' else digits fuel' (n / 10) acc'
  end.

Definition of_number (n : N) : jsstring := digits (S (N.to_nat (N.log2 n))) n [].

Definition is_high_surrogate (c : N) : bool := (0xD800 <=? c) && (c <=? 0xDBFF).
Definition is_low_surrogate (c : N) : bool := (0xDC00 <=? c) && (c <=? 0xDFFF).

Definition hex_digit (n : N) : N := if n <? 10 then 48 + n else 87 + n.

(** [UnicodeEscape]: backslash, u, four lower-case hexadecimal digits. *)
Definition unicode_escape (c : N) : jsstring :=
  [92; 117; hex_digit (N.shiftr c 12 mod 16); hex_digit (N.shiftr c 8 mod 16);
   hex_digit (N.shiftr c 4 mod 16); hex_digit (c mod 16)].

Definition quote_unit (c : N) : jsstring :=
  if c =? 0x08 then [92; 98]
  else if c =? 0x09 then [92; 116]
  else if c =? 0x0A then [92; 110]
  else if c =? 0x0C then [92; 102]
  else if c =? 0x0D then [92; 114]
  else if c =? 0x22 then [92; 34]
  else if c =? 0x5C then [92; 92]
  else if c <? 0x20 then unicode_escape c
  else [c].

(** The body of [QuoteJSONString]: the string is walked by code point, so
    a surrogate pair is copied and a lone surrogate is escaped. *)
Fixpoint quote_units (s : jsstring) : jsstring :=
  match s with
  | [] => []
  | c :: rest =>
      if is_high_surrogate c then
        match rest with
        | d :: rest' =>
            if is_low_surrogate d then c :: d :: quote_units rest'
            else unicode_escape c ++ quote_units rest
        | [] => unicode_escape c
        end
      else if is_low_surrogate c then unicode_escape c ++ quote_units rest
      else quote_unit c ++ quote_units rest
  end.

Definition QuoteJSONString (s : jsstring) : jsstring :=
  [34] ++ quote_units s ++ [34].

End JsString.

Import JsString.

(* ================================================================== *)
(** ** The UTF-8 decoder and [TextDecoder] (Encoding Standard) *)

Module Utf8.

(** The state of the UTF-8 decoder, section 8.1.1 of the standard. *)
Record decoder := mkDecoder {
  code_point : N;
  bytes_seen : N;
  bytes_needed : N;
  lower_boundary : N;
  upper_boundary : N
}.

Definition fresh : decoder := mkDecoder 0 0 0 0x80 0xBF.

(** What a handler returns for a byte. *)
Inductive result :=
| Continue
| Item (c : N)
| Error.

Definition between (lo hi b : N) : bool := (lo <=? b) && (b <=? hi).

(** Step 3 of the handler: no sequence is in progress. *)
Definition lead (d : decoder) (b : N) : decoder * result :=
  if between 0x00 0x7F b then (d, Item b)
  else if between 0xC2 0xDF b then
    (mkDecoder (N.land b 0x1F) (bytes_seen d) 1
               (lower_boundary d) (upper_boundary d), Continue)
  else if between 0xE0 0xEF b then
    (mkDecoder (N.land b 0xF) (bytes_seen d) 2
               (if b =? 0xE0 then 0xA0 else lower_boundary d)
               (if b =? 0xED then 0x9F else upper_boundary d), Continue)
  else if between 0xF0 0xF4 b then
    (mkDecoder (N.land b 0x7) (bytes_seen d) 3
               (if b =? 0xF0 then 0x90 else lower_boundary d)
               (if b =? 0xF4 then 0x8F else upper_boundary d), Continue)
  else (d, Error).

(** The handler on a byte.  The third component is the byte the handler
    restores to the front of the I/O queue, if any. *)
Definition handler (d : decoder) (b : N) : decoder * result * option N :=
  if bytes_needed d =? 0 then (lead d b, None)
  else if negb (between (lower_boundary d) (upper_boundary d) b) then
    (mkDecoder 0 0 0 0x80 0xBF, Error, Some b)
  else
    let cp := N.lor (N.shiftl (code_point d) 6) (N.land b 0x3F) in
    let seen := bytes_seen d + 1 in
    if negb (seen =? bytes_needed d) then
      (mkDecoder cp seen (bytes_needed d) 0x80 0xBF, Continue, None)
    else
      (mkDecoder 0 0 0 0x80 0xBF, Item cp, None).

(** "Process an item" in the replacement error mode of a default
    [TextDecoder]: the scalar values pushed to the output queue. *)
Definition pushed (r : result) : list N :=
  match r with
  | Continue => []
  | Item c => [c]
  | Error => [0xFFFD]
  end.

(** One byte read from the queue, including the second reading of a byte
    that the handler restored.  A restored byte meets a decoder with
    [bytes_needed = 0], which never restores (see [handler_lead]). *)
Definition process_byte (d : decoder) (b : byte) : decoder * list N :=
  let '(d1, r1, back) := handler d (Byte.to_N b) in
  match back with
  | None => (d1, pushed r1)
  | Some b' =>
      let '(d2, r2, _) := handler d1 b' in
      (d2, pushed r1 ++ pushed r2)
  end.

Fixpoint process_queue (d : decoder) (bs : list byte) : decoder * list N :=
  match bs with
  | [] => (d, [])
  | b :: bs' =>
      let '(d1, o1) := process_byte d b in
      let '(d2, o2) := process_queue d1 bs' in
      (d2, o1 ++ o2)
  end.

(** The handler on end-of-queue, run until it returns finished. *)
Definition end_of_queue (d : decoder) : decoder * list N :=
  if negb (bytes_needed d =? 0) then
    (mkDecoder (code_point d) (bytes_seen d) 0
               (lower_boundary d) (upper_boundary d), [0xFFFD])
  else (d, []).

(** A scalar value as UTF-16 code units. *)
Definition utf16 (c : N) : jsstring :=
  if c <? 0x10000 then [c]
  else [0xD800 + N.shiftr (c - 0x10000) 10; 0xDC00 + N.land (c - 0x10000) 0x3FF].

(** "Serialize I/O queue" with [ignoreBOM] false: the first scalar value
    of the stream is dropped when it is U+FEFF. *)
Fixpoint serialize (BOM_seen : bool) (output : list N) : bool * jsstring :=
  match output with
  | [] => (BOM_seen, [])
  | item :: rest =>
      if negb BOM_seen && (item =? 0xFEFF) then serialize true rest
      else
        let '(seen, s) := serialize true rest in
        (seen, utf16 item ++ s)
  end.

End Utf8.

(** The [TextDecoder] object.  Every call of [decode] reads its I/O queue
    to the end, so the queue is empty between calls and is not stored. *)
Record TextDecoder := mkTextDecoder {
  td_decoder : Utf8.decoder;
  td_BOM_seen : bool;
  td_do_not_flush : bool
}.

(** [new TextDecoder()]: UTF-8, not fatal, BOM not ignored. *)
Definition new_TextDecoder : TextDecoder :=
  mkTextDecoder Utf8.fresh false false.

(** [decoder.decode(input, { stream })]; [input = None] is the call
    without arguments. *)
Definition decode (t : TextDecoder) (input : option (list byte)) (stream : bool)
  : jsstring * TextDecoder :=
  let d0 := if td_do_not_flush t then td_decoder t else Utf8.fresh in
  let seen0 := if td_do_not_flush t then td_BOM_seen t else false in
  let bytes := match input with Some bs => bs | None => [] end in
  let '(d1, o1) := Utf8.process_queue d0 bytes in
  let '(d2, o2) := if stream then (d1, []) else Utf8.end_of_queue d1 in
  let '(seen, s) := Utf8.serialize seen0 (o1 ++ o2) in
  (s, mkTextDecoder d2 seen stream).

(** The UTF-8 decoding of a whole byte sequence: one call on a new
    decoder, as [new TextDecoder().decode(bytes)]. *)
Definition utf8_decode (bytes : list byte) : jsstring :=
  fst (decode new_TextDecoder (Some bytes) false).

(* ================================================================== *)
(** ** Values, the page and the network *)

(** The values the script can meet as a thrown exception or a rejection
    reason: an [Error] instance with its [name] and [message], a string,
    [undefined] or [null]. *)
Inductive jsval :=
| VUndefined
| VNull
| VString (s : jsstring)
| VError (name message : jsstring).

(** [e?.message]. *)
Definition optional_message (e : jsval) : jsval :=
  match e with
  | VError _ m => VString m
  | _ => VUndefined
  end.

Definition ToBoolean (v : jsval) : bool :=
  match v with
  | VUndefined | VNull => false
  | VString s => truthy s
  | VError _ _ => true
  end.

(** [a || b]. *)
Definition or_else (a b : jsval) : jsval := if ToBoolean a then a else b.

(** [ToString], with [Error.prototype.toString] for error objects. *)
Definition ToString (v : jsval) : jsstring :=
  match v with
  | VUndefined => lit "undefined"
  | VNull => lit "null"
  | VString s => s
  | VError n m =>
      if negb (truthy n) then m
      else if negb (truthy m) then n
      else n ++ lit ": " ++ m
  end.

(** [JSON.stringify] of an object whose own properties are strings, with
    no indentation. *)
Fixpoint JSON_members (fields : list (jsstring * jsstring)) : jsstring :=
  match fields with
  | [] => []
  | [(k, v)] => QuoteJSONString k ++ [58] ++ QuoteJSONString v
  | (k, v) :: rest =>
      QuoteJSONString k ++ [58] ++ QuoteJSONString v ++ [44] ++ JSON_members rest
  end.

Definition JSON_stringify (fields : list (jsstring * jsstring)) : jsstring :=
  [123] ++ JSON_members fields ++ [125].

(** A settled promise. *)
Inductive settled (A : Type) :=
| Fulfilled (a : A)
| Rejected (reason : jsval).
Arguments Fulfilled {A} a.
Arguments Rejected {A} reason.

(** A response body as its reader sees it: the chunks it delivers, then
    either the end of the stream ([None]) or an error. *)
Record ReadableStream := mkStream {
  chunks : list (list byte);
  failure : option jsval
}.

(** The part of a Fetch [Response] the script touches. *)
Record Response := mkResponse {
  status : N;
  text : settled jsstring;
  body : option ReadableStream
}.

(** [res.ok]: the status is in the range 200 to 299. *)
Definition ok (res : Response) : bool :=
  (200 <=? status res) && (status res <=? 299).

Record Request := mkRequest {
  url : jsstring;
  method : jsstring;
  headers : list (jsstring * jsstring);
  req_body : jsstring
}.

(** How the network answers a request. *)
Definition world := Request -> settled Response.

(** The elements of the page the script looks up by id: [#prompt], [#out],
    [#send], and [#loading] which a page may lack. *)
Record page := mkPage {
  prompt_value : jsstring;
  out_textContent : jsstring;
  send_disabled : bool;
  loading_classList : option (list string)
}.

(** The effects of a run, in program order. *)
Inductive effect :=
| ReadPromptValue
| SetTextContent (s : jsstring)
| SetScrollTop
| SetDisabled (b : bool)
| ClassListAdd (token : string)
| ClassListRemove (token : string)
| Fetch (r : Request)
| ResText
| ReaderRead.

(* ================================================================== *)
(** ** Statements with abrupt completion *)

Inductive completion (A : Type) :=
| Normal (a : A)
| Return
| Throw (e : jsval).
Arguments Normal {A} a.
Arguments Return {A}.
Arguments Throw {A} e.

Definition M (A : Type) : Type := page -> completion A * page * list effect.

Definition ret {A} (a : A) : M A := fun p => (Normal a, p, []).

Definition bind {A B} (m : M A) (f : A -> M B) : M B :=
  fun p =>
    match m p with
    | (Normal a, p1, t1) => let '(c, p2, t2) := f a p1 in (c, p2, t1 ++ t2)
    | (Return, p1, t1) => (Return, p1, t1)
    | (Throw e, p1, t1) => (Throw e, p1, t1)
    end.

Notation "x <- m ;; k" := (bind m (fun x => k))
  (at level 61, m at next level, right associativity).
Notation "m ;; k" := (bind m (fun _ => k))
  (at level 61, right associativity).

Definition return_ {A} : M A := fun p => (Return, p, []).
Definition throw {A} (e : jsval) : M A := fun p => (Throw e, p, []).

(** [try { body } catch (e) { handler } finally { fin }]. *)
Definition try_catch_finally (body : M unit) (handler : jsval -> M unit)
    (fin : M unit) : M unit :=
  fun p =>
    let '(c1, p1, t1) := body p in
    let '(c2, p2, t2) :=
      match c1 with
      | Throw e => handler e p1
      | _ => (c1, p1, [])
      end in
    let '(c3, p3, t3) := fin p2 in
    (match c3 with Normal _ => c2 | _ => c3 end, p3, t1 ++ t2 ++ t3).

(** [await] of a settled promise. *)
Definition await {A} (s : settled A) : M A :=
  match s with
  | Fulfilled a => ret a
  | Rejected e => throw e
  end.

Definition effect_ (e : effect) : M unit := fun p => (Normal tt, p, [e]).

(** *** Accesses to the page *)

Definition get_prompt_value : M jsstring :=
  fun p => (Normal (prompt_value p), p, [ReadPromptValue]).

Definition get_textContent : M jsstring :=
  fun p => (Normal (out_textContent p), p, []).

Definition set_textContent (s : jsstring) : M unit :=
  fun p =>
    (Normal tt,
     mkPage (prompt_value p) s (send_disabled p) (loading_classList p),
     [SetTextContent s]).

Definition set_disabled (b : bool) : M unit :=
  fun p =>
    (Normal tt,
     mkPage (prompt_value p) (out_textContent p) b (loading_classList p),
     [SetDisabled b]).

(** [out.scrollTop = out.scrollHeight]; the layout is not modelled, the
    assignment is only recorded. *)
Definition scroll_to_bottom : M unit := effect_ SetScrollTop.

Definition token_add (tok : string) (l : list string) : list string :=
  if existsb (String.eqb tok) l then l else l ++ [tok].

Definition token_remove (tok : string) (l : list string) : list string :=
  filter (fun t => negb (String.eqb tok t)) l.

(** [if (overlay) overlay.classList.add(tok)]. *)
Definition overlay_add (tok : string) : M unit :=
  fun p =>
    match loading_classList p with
    | None => (Normal tt, p, [])
    | Some l =>
        (Normal tt,
         mkPage (prompt_value p) (out_textContent p) (send_disabled p)
                (Some (token_add tok l)),
         [ClassListAdd tok])
    end.

(** [if (overlay) overlay.classList.remove(tok)]. *)
Definition overlay_remove (tok : string) : M unit :=
  fun p =>
    match loading_classList p with
    | None => (Normal tt, p, [])
    | Some l =>
        (Normal tt,
         mkPage (prompt_value p) (out_textContent p) (send_disabled p)
                (Some (token_remove tok l)),
         [ClassListRemove tok])
    end.

(** *** Calls to the platform *)

Definition fetch (w : world) (r : Request) : M Response :=
  effect_ (Fetch r) ;; await (w r).

Definition res_text (res : Response) : M jsstring :=
  effect_ ResText ;; await (text res).

(** [out.textContent += s]. *)
Definition append_textContent (s : jsstring) : M unit :=
  old <- get_textContent ;; set_textContent (old ++ s).

(** The reading loop of [send]: [while (true)] around [reader.read()].
    The reader's position is the list of chunks still to come; the loop
    leaves by [break] when the stream is done, and by the rejection when
    the stream fails. *)
Fixpoint read_loop (rest : list (list byte)) (fail : option jsval)
    (decoder : TextDecoder) : M TextDecoder :=
  match rest with
  | [] =>
      effect_ ReaderRead ;;
      match fail with
      | None => ret decoder
      | Some e => throw e
      end
  | value :: rest' =>
      effect_ ReaderRead ;;
      let '(s, decoder') := decode decoder (Some value) true in
      append_textContent s ;;
      scroll_to_bottom ;;
      read_loop rest' fail decoder'
  end.

(** The request of [send] for a prompt. *)
Definition chat_request (prompt : jsstring) : Request :=
  mkRequest (lit "/chat/stream") (lit "POST")
            [(lit "Content-Type", lit "application/json")]
            (JSON_stringify [(lit "prompt", prompt)]).

(** The handler of the [catch] clause. *)
Definition on_error (e : jsval) : M unit :=
  set_textContent (lit "Network error: " ++ ToString (or_else (optional_message e) e)).

(* ================================================================== *)
(** ** [send] of [static/app.js] *)

Definition send (w : world) : M unit :=
  v <- get_prompt_value ;;
  let prompt := trim v in
  if negb (truthy prompt) then
    set_textContent (lit "Please enter a message.") ;; return_
  else
    set_textContent [] ;;
    set_disabled true ;;
    overlay_add "show" ;;
    try_catch_finally
      (res <- fetch w (chat_request prompt) ;;
       if negb (ok res) then
         err <- res_text res ;;
         set_textContent (lit "Error " ++ of_number (status res) ++ lit ": " ++ err) ;;
         return_
       else
         match body res with
         | None =>
             set_textContent (lit "Streaming not supported by the browser/connection.") ;;
             return_
         | Some stream =>
             decoder <- read_loop (chunks stream) (failure stream) new_TextDecoder ;;
             append_textContent (fst (decode decoder None false)) ;;
             scroll_to_bottom
         end)
      on_error
      (set_disabled false ;; overlay_remove "show").

(** The key-down listener on [#prompt].  The promise of [send()] is
    dropped, so the listener itself completes normally. *)
Record KeyboardEvent := mkKey {
  key : jsstring;
  ctrlKey : bool;
  metaKey : bool
}.

Definition keydown_listener (w : world) (e : KeyboardEvent) : M unit :=
  if JsString.eqb (key e) (lit "Enter") && (ctrlKey e || metaKey e) then
    fun p => let '(_, p', t) := send w p in (Normal tt, p', t)
  else ret tt.

(** ** [send] of the variant without a loading overlay ([unnamed/part_000]) *)

Module Part000.

Definition send (w : world) : M unit :=
  v <- get_prompt_value ;;
  let prompt := trim v in
  if negb (truthy prompt) then
    set_textContent (lit "Please enter a message.") ;; return_
  else
    set_textContent [] ;;
    set_disabled true ;;
    try_catch_finally
      (res <- fetch w (chat_request prompt) ;;
       if negb (ok res) then
         err <- res_text res ;;
         set_textContent (lit "Error " ++ of_number (status res) ++ lit ": " ++ err) ;;
         set_disabled false ;;
         return_
       else
         match body res with
         | None =>
             set_textContent (lit "Streaming not supported by the browser/connection.") ;;
             set_disabled false ;;
             return_
         | Some stream =>
             decoder <- read_loop (chunks stream) (failure stream) new_TextDecoder ;;
             append_textContent (fst (decode decoder None false)) ;;
             scroll_to_bottom
         end)
      on_error
      (set_disabled false).

End Part000.

(** *** Observations on a run *)

Definition final_page {A} (r : completion A * page * list effect) : page :=
  snd (fst r).

Definition effects {A} (r : completion A * page * list effect) : list effect :=
  snd r.

Definition displayed {A} (r : completion A * page * list effect) : jsstring :=
  out_textContent (final_page r).

(** The network requests among the effects. *)
Fixpoint requests (t : list effect) : list Request :=
  match t with
  | [] => []
  | Fetch r :: t' => r :: requests t'
  | _ :: t' => requests t'
  end.

(** The successive values written to [out.textContent]. *)
Fixpoint writes (t : list effect) : list jsstring :=
  match t with
  | [] => []
  | SetTextContent s :: t' => s :: writes t'
  | _ :: t' => writes t'
  end.

Definition is_reenable (e : effect) : bool :=
  match e with SetDisabled false => true | _ => false end.

Definition is_hide (e : effect) : bool :=
  match e with ClassListRemove tok => String.eqb tok "show" | _ => false end.

Definition count (f : effect -> bool) (t : list effect) : nat :=
  List.length (filter f t).

(** The error, if any, that the [try] block of [send] raises against a
    given answer of the network: a rejected [fetch], a rejected
    [res.text()] on a status that is not ok, or a failing stream. *)
Definition raised (answer : settled Response) : option jsval :=
  match answer with
  | Rejected e => Some e
  | Fulfilled res =>
      if negb (ok res) then
        match text res with
        | Rejected e => Some e
        | Fulfilled _ => None
        end
      else
        match body res with
        | None => None
        | Some stream => failure stream
        end
  end.

Fixpoint prefixb (a b : jsstring) : bool :=
  match a, b with
  | [], _ => true
  | x :: a', y :: b' => (x =? y) && prefixb a' b'
  | _ :: _, [] => false
  end.

(** Every value of the list extends the one before it, starting from
    [prev]. *)
Fixpoint append_only (prev : jsstring) (ws : list jsstring) : bool :=
  match ws with
  | [] => true
  | w :: ws' => prefixb prev w && append_only w ws'
  end.

(** The output area is cleared first and only appended to afterwards. *)
Definition cleared_then_appended (ws : list jsstring) : bool :=
  match ws with
  | [] :: rest => append_only [] rest
  | _ => false
  end.

(** The pure counterpart of [read_loop]: the text the chunks add to the
    output area and the decoder after them. *)
Fixpoint decode_chunks (t : TextDecoder) (cs : list (list byte))
  : jsstring * TextDecoder :=
  match cs with
  | [] => ([], t)
  | c :: cs' =>
      let '(s, t1) := decode t (Some c) true in
      let '(s', t2) := decode_chunks t1 cs' in
      (s ++ s', t2)
  end.

(** The effects of [read_loop] on an output area holding [old]. *)
Fixpoint read_effects (old : jsstring) (t : TextDecoder) (cs : list (list byte))
  : list effect :=
  match cs with
  | [] => [ReaderRead]
  | c :: cs' =>
      let '(s, t1) := decode t (Some c) true in
      ReaderRead :: SetTextContent (old ++ s) :: SetScrollTop
        :: read_effects (old ++ s) t1 cs'
  end.

Definition with_text (p : page) (s : jsstring) : page :=
  mkPage (prompt_value p) s (send_disabled p) (loading_classList p).

(** The text the [catch] clause displays for a thrown value. *)
Definition catch_text (e : jsval) : jsstring :=
  lit "Network error: " ++ ToString (or_else (optional_message e) e).

(** The [message] of a thrown error; a value that is not an error object
    has none. *)
Definition message_text (e : jsval) : jsstring :=
  match e with
  | VError _ m => m
  | _ => []
  end.

Definition is_read_prompt (e : effect) : bool :=
  match e with ReadPromptValue => true | _ => false end.

(** The loading overlay is hidden when the page has none or when its
    class list lacks [show]. *)
Definition overlay_hidden (p : page) : bool :=
  match loading_classList p with
  | None => true
  | Some l => negb (existsb (String.eqb "show") l)
  end.

(** The cleanup actions ran once each: one re-enabling of the submit
    control and, on a page with an overlay, one removal of [show]. *)
Definition cleanup_once (p : page) (r : completion unit * page * list effect)
  : Prop :=
  count is_reenable (effects r) = 1%nat
  /\ count is_hide (effects r)
     = match loading_classList p with Some _ => 1%nat | None => 0%nat end.

(** *** Sample pages and answers *)

Module Samples.

(** A page whose prompt holds " hi ", with a loading overlay. *)
Definition hi_page : page :=
  mkPage (lit " hi ") (lit "previous answer") false (Some ["overlay"%string]).

(** A page whose prompt holds only white space, as it stands while an
    earlier request is in flight: control disabled, overlay shown. *)
Definition blank_page : page :=
  mkPage [32; 9; 32] (lit "partial answer") true
         (Some ["overlay"%string; "show"%string]).

Definition answer (res : Response) : world := fun _ => Fulfilled res.

(** The euro sign followed by an emoji, cut inside both characters. *)
Definition euro_chunks : list (list byte) :=
  [[xe2; x82]; [xac; xf0; x9f]; []; [x98; x80]].

Definition euro_response : Response :=
  mkResponse 200 (Fulfilled []) (Some (mkStream euro_chunks None)).

Definition bad_request : Response :=
  mkResponse 400 (Fulfilled (lit "bad request")) None.

Definition no_body : Response := mkResponse 204 (Fulfilled []) None.

(** A stream that delivers "Hi" and then fails. *)
Definition broken_response : Response :=
  mkResponse 200 (Fulfilled [])
    (Some (mkStream [[x48; x69]]
                    (Some (VError (lit "TypeError") (lit "network error"))))).

Definition timeout_world : world :=
  fun _ => Rejected (VError (lit "Error") (lit "timeout")).

(** An error object whose message is the empty string. *)
Definition silent_error : jsval := VError (lit "TypeError") [].

Definition silent_world : world := fun _ => Rejected silent_error.

Definition enter (ctrl meta : bool) : KeyboardEvent :=
  mkKey (lit "Enter") ctrl meta.

End Samples.

Module MoreSamples.

(** "Hello" in two chunks, all ASCII. *)
Definition hello_response : Response :=
  mkResponse 200 (Fulfilled [])
    (Some (mkStream [[x48; x65]; [x6c; x6c; x6f]] None)).

(** Ctrl held with the letter a. *)
Definition ctrl_a : KeyboardEvent := mkKey (lit "a") true false.

End MoreSamples.

(** *** Further observations *)

Definition is_read (e : effect) : bool :=
  match e with ReaderRead => true | _ => false end.

Definition is_scroll (e : effect) : bool :=
  match e with SetScrollTop => true | _ => false end.

Definition is_res_text (e : effect) : bool :=
  match e with ResText => true | _ => false end.

(** The effects that belong to the time a request is in flight: reads of
    the answer and updates of the output area.  The submit control, the
    overlay, the prompt and [fetch] itself are not among them. *)
Definition in_flight (e : effect) : bool :=
  match e with
  | SetTextContent _ | SetScrollTop | ResText | ReaderRead => true
  | _ => false
  end.

(** The class-list effect of a page with an overlay, none without. *)
Definition overlay_effect (p : page) (e : effect) : list effect :=
  match loading_classList p with
  | Some _ => [e]
  | None => []
  end.


Definition is_ascii (b : byte) : bool := Byte.to_N b <? 0x80.

(** The number a string of decimal digits denotes. *)
Definition decimal_value (s : jsstring) : N :=
  fold_left (fun a d => a * 10 + (d - 48)) s 0.

Definition is_digit (c : N) : bool := (48 <=? c) && (c <=? 57).

(* ================================================================== *)
(** ** Strings *)

Section StringFacts.

Lemma eqb_eq (a b : jsstring) : JsString.eqb a b = true <-> a = b.
Proof.
  revert b; induction a as [|x a IH]; intros [|y b]; simpl;
    try (split; [discriminate | congruence]); try tauto.
  rewrite andb_true_iff, N.eqb_eq, IH.
  split; [intros [-> ->]; reflexivity | intros H; inversion H; auto].
Qed.

Lemma truthy_false (s : jsstring) : truthy s = false <-> s = [].
Proof. destruct s; simpl; split; congruence. Qed.

Lemma truthy_true (s : jsstring) : truthy s = true <-> s <> [].
Proof. destruct s; simpl; split; congruence. Qed.

Lemma trimStart_nil (s : jsstring) :
  trimStart s = [] <-> forallb is_white_space s = true.
Proof.
  induction s as [|c s IH]; simpl; [tauto|].
  destruct (is_white_space c); simpl; [exact IH|].
  split; discriminate.
Qed.

Lemma trimStart_all (s : jsstring) :
  forallb is_white_space s = true -> trimStart s = [].
Proof. apply trimStart_nil. Qed.

Lemma trimStart_suffix (s : jsstring) :
  exists ws, s = ws ++ trimStart s /\ forallb is_white_space ws = true.
Proof.
  induction s as [|c s [ws [E W]]]; simpl.
  - exists []; auto.
  - destruct (is_white_space c) eqn:Hc.
    + exists (c :: ws); simpl; rewrite Hc, W; split; [congruence | reflexivity].
    + exists []; auto.
Qed.

Lemma forallb_rev' (f : N -> bool) (l : list N) :
  forallb f (rev l) = forallb f l.
Proof.
  induction l as [|x l IH]; simpl; [reflexivity|].
  rewrite forallb_app, IH; simpl.
  rewrite andb_true_r; apply andb_comm.
Qed.

(** The trimmed value is empty exactly for the empty and the
    whitespace-only strings. *)
Lemma trim_nil_iff (s : jsstring) :
  trim s = [] <-> forallb is_white_space s = true.
Proof.
  unfold trim, trimEnd; split.
  - intros H.
    assert (H1 : trimStart (rev (trimStart s)) = []).
    { rewrite <- (rev_involutive (trimStart _)), H; reflexivity. }
    apply trimStart_nil in H1.
    rewrite forallb_rev' in H1.
    destruct (trimStart_suffix s) as [ws [E W]].
    rewrite E, forallb_app, W, H1; reflexivity.
  - intros H; rewrite (trimStart_all s H); reflexivity.
Qed.

Lemma prefixb_app (a b : jsstring) : prefixb a (a ++ b) = true.
Proof. induction a; simpl; [|rewrite N.eqb_refl]; auto. Qed.

Lemma prefixb_nil (a : jsstring) : prefixb [] a = true.
Proof. reflexivity. Qed.

End StringFacts.

(* ================================================================== *)
(** ** The incremental decoder *)

Section DecoderFacts.

(** A decoder with no sequence in progress never restores a byte, so
    the second reading in [process_byte] is the last. *)
Lemma handler_lead (d : Utf8.decoder) (b : N) :
  Utf8.bytes_needed d = 0 -> snd (Utf8.handler d b) = None.
Proof. intros H; unfold Utf8.handler; rewrite H; reflexivity. Qed.

Lemma handler_restored (d d' : Utf8.decoder) (r : Utf8.result) (b b' : N) :
  Utf8.handler d b = (d', r, Some b') ->
  b' = b /\ snd (Utf8.handler d' b') = None.
Proof.
  unfold Utf8.handler.
  destruct (Utf8.bytes_needed d =? 0); [discriminate|].
  destruct (negb (Utf8.between _ _ b)).
  - intros H; inversion H; subst; split; reflexivity.
  - destruct (negb _); discriminate.
Qed.

Lemma process_queue_app (d : Utf8.decoder) (a b : list byte) :
  Utf8.process_queue d (a ++ b) =
    let '(d1, o1) := Utf8.process_queue d a in
    let '(d2, o2) := Utf8.process_queue d1 b in
    (d2, o1 ++ o2).
Proof.
  revert d; induction a as [|x a IH]; intros d; simpl.
  - destruct (Utf8.process_queue d b); reflexivity.
  - destruct (Utf8.process_byte d x) as [d1 o1].
    rewrite IH.
    destruct (Utf8.process_queue d1 a) as [d2 o2].
    destruct (Utf8.process_queue d2 b) as [d3 o3].
    rewrite app_assoc; reflexivity.
Qed.

Lemma serialize_app (seen : bool) (a b : list N) :
  Utf8.serialize seen (a ++ b) =
    let '(s1, r1) := Utf8.serialize seen a in
    let '(s2, r2) := Utf8.serialize s1 b in
    (s2, r1 ++ r2).
Proof.
  revert seen; induction a as [|x a IH]; intros seen; simpl.
  - destruct (Utf8.serialize seen b); reflexivity.
  - destruct (negb seen && (x =? 0xFEFF)).
    + apply IH.
    + rewrite IH.
      destruct (Utf8.serialize true a) as [s1 r1].
      destruct (Utf8.serialize s1 b) as [s2 r2].
      rewrite app_assoc; reflexivity.
Qed.

(** A streaming call followed by a call on the rest gives what one call
    on the whole gives. *)
Lemma decode_split (t : TextDecoder) (a b : list byte) (final : bool) :
  fst (decode t (Some a) true)
    ++ fst (decode (snd (decode t (Some a) true)) (Some b) final)
  = fst (decode t (Some (a ++ b)) final).
Proof.
  unfold decode.
  rewrite process_queue_app.
  destruct (Utf8.process_queue _ a) as [d1 o1].
  rewrite app_nil_r.
  destruct (Utf8.serialize _ o1) as [s1 r1] eqn:E1; simpl.
  destruct (Utf8.process_queue d1 b) as [d2 o2].
  destruct (if final then _ else _) as [d3 o3].
  rewrite <- (app_assoc o1), (serialize_app _ o1), E1.
  destruct (Utf8.serialize s1 (o2 ++ o3)) as [s2 r2]; reflexivity.
Qed.

Lemma decode_no_input (t : TextDecoder) (final : bool) :
  decode t None final = decode t (Some []) final.
Proof. reflexivity. Qed.

(** Decoding chunk by chunk and flushing at the end is decoding the
    concatenation in one call. *)
Lemma decode_chunks_flush (cs : list (list byte)) (t : TextDecoder) :
  fst (decode_chunks t cs) ++ fst (decode (snd (decode_chunks t cs)) None false)
  = fst (decode t (Some (List.concat cs)) false).
Proof.
  revert t; induction cs as [|c cs IH]; intros t; simpl.
  - reflexivity.
  - rewrite <- decode_split.
    destruct (decode t (Some c) true) as [s t1]; simpl.
    specialize (IH t1).
    destruct (decode_chunks t1 cs) as [s' t2]; simpl in *.
    rewrite <- app_assoc, IH; reflexivity.
Qed.

End DecoderFacts.

(* ================================================================== *)
(** ** The reading loop *)

Section ReadLoop.

Lemma with_text_same (p : page) : with_text p (out_textContent p) = p.
Proof. destruct p; reflexivity. Qed.

(** The loop always ends: it returns the decoder when the stream is
    done and throws the stream's error otherwise; on the way it only
    appends to the output area. *)
Lemma read_loop_run (cs : list (list byte)) (fail : option jsval) :
  forall (t : TextDecoder) (p : page),
    read_loop cs fail t p =
      (match fail with
       | None => Normal (snd (decode_chunks t cs))
       | Some e => Throw e
       end,
       with_text p (out_textContent p ++ fst (decode_chunks t cs)),
       read_effects (out_textContent p) t cs).
Proof.
  induction cs as [|c cs IH]; intros t p.
  - simpl. rewrite app_nil_r, with_text_same.
    destruct fail; reflexivity.
  - simpl. destruct (decode t (Some c) true) as [s t1].
    unfold bind at 1; simpl.
    unfold bind at 1; simpl.
    unfold bind at 1; simpl.
    rewrite IH; simpl.
    destruct (decode_chunks t1 cs) as [s' t2]; simpl.
    unfold with_text; simpl.
    rewrite app_assoc.
    destruct fail; reflexivity.
Qed.

Lemma requests_app (a b : list effect) :
  requests (a ++ b) = requests a ++ requests b.
Proof.
  induction a as [|e a IH]; simpl; [reflexivity|].
  destruct e; simpl; rewrite IH; reflexivity.
Qed.

Lemma writes_app (a b : list effect) :
  writes (a ++ b) = writes a ++ writes b.
Proof.
  induction a as [|e a IH]; simpl; [reflexivity|].
  destruct e; simpl; rewrite IH; reflexivity.
Qed.

Lemma count_app (f : effect -> bool) (a b : list effect) :
  count f (a ++ b) = (count f a + count f b)%nat.
Proof. unfold count; rewrite filter_app, length_app; reflexivity. Qed.

Lemma requests_read_effects (cs : list (list byte)) :
  forall old t, requests (read_effects old t cs) = [].
Proof.
  induction cs as [|c cs IH]; intros old t; simpl; [reflexivity|].
  destruct (decode t (Some c) true); simpl; apply IH.
Qed.

(** The loop performs only reads, appends and scrolls. *)
Lemma count_read_effects (f : effect -> bool) (cs : list (list byte)) :
  f ReaderRead = false -> f SetScrollTop = false ->
  (forall s, f (SetTextContent s) = false) ->
  forall old t, count f (read_effects old t cs) = 0%nat.
Proof.
  intros H1 H2 H3.
  induction cs as [|c cs IH]; intros old t; unfold count in *; simpl.
  - rewrite H1; reflexivity.
  - destruct (decode t (Some c) true); simpl.
    rewrite H1, H2, H3; apply IH.
Qed.

Lemma last_cons (x : jsstring) (a : list jsstring) (d : jsstring) :
  last (x :: a) d = last a x.
Proof.
  revert x d; induction a as [|y a IH]; intros x d; [reflexivity|].
  change (last (x :: y :: a) d) with (last (y :: a) d).
  rewrite (IH y d); symmetry; apply (IH y x).
Qed.

Lemma append_only_app (prev : jsstring) (a b : list jsstring) :
  append_only prev (a ++ b) =
    append_only prev a && append_only (last a prev) b.
Proof.
  revert prev; induction a as [|x a IH]; intros prev; [reflexivity|].
  change (append_only prev ((x :: a) ++ b))
    with (prefixb prev x && append_only x (a ++ b)).
  rewrite IH, andb_assoc, (last_cons x a prev); reflexivity.
Qed.

(** Each write of the loop extends the one before, and the last one is
    the text of all chunks. *)
Lemma writes_read_effects (cs : list (list byte)) :
  forall old t,
    append_only old (writes (read_effects old t cs)) = true
    /\ last (writes (read_effects old t cs)) old
       = old ++ fst (decode_chunks t cs).
Proof.
  induction cs as [|c cs IH]; intros old t; simpl.
  - rewrite app_nil_r; auto.
  - destruct (decode t (Some c) true) as [s t1]; simpl.
    destruct (IH (old ++ s) t1) as [A L].
    destruct (decode_chunks t1 cs) as [s' t2]; simpl in *.
    rewrite prefixb_app, A; split; [reflexivity|].
    rewrite app_assoc, <- L.
    apply last_cons.
Qed.

End ReadLoop.

(* ================================================================== *)
(** ** The runs of [send] *)

#[local] Arguments lit : simpl never.
#[local] Arguments of_number : simpl never.
#[local] Arguments JSON_stringify : simpl never.
#[local] Arguments chat_request : simpl never.
#[local] Arguments ToString : simpl never.
#[local] Arguments trim : simpl never.
#[local] Arguments decode : simpl never.
#[local] Arguments decode_chunks : simpl never.
#[local] Arguments read_effects : simpl never.
#[local] Arguments token_add : simpl never.
#[local] Arguments token_remove : simpl never.
#[local] Arguments new_TextDecoder : simpl never.
#[local] Arguments count : simpl never.
#[local] Arguments catch_text : simpl never.
#[local] Arguments String.eqb : simpl never.

Ltac unfold_ops :=
  unfold send, Part000.send, try_catch_finally, fetch, res_text, on_error,
    append_textContent, scroll_to_bottom, overlay_add, overlay_remove,
    bind, get_prompt_value, get_textContent, set_textContent, set_disabled,
    effect_, return_, await, ret, throw, displayed, final_page, effects.

(** Enter [send] with the outcome [H] of the validation, on a page with
    or without overlay. *)
Ltac run_send H p :=
  unfold_ops; cbn; rewrite H; cbn;
  destruct (loading_classList p) eqn:?; cbn.

(** Split on the answer of the network [w]: the five ways the [try]
    block can go after validation. *)
Ltac case_answer w :=
  match goal with
  | |- context [w ?r] =>
      let res := fresh "res" in
      let e := fresh "e" in
      destruct (w r) as [res|e] eqn:?; cbn;
      [ destruct (ok res) eqn:?; cbn;
        [ let st := fresh "stream" in
          destruct (body res) as [st|] eqn:?; cbn;
          [ rewrite read_loop_run; destruct (failure st) eqn:?; cbn | ]
        | destruct (text res) eqn:?; cbn ]
      | ]
  end.

Section Runs.

Variable w : world.
Variable p : page.

Local Abbreviation prompt := (trim (prompt_value p)).

Lemma count_cons (f : effect -> bool) (e : effect) (t : list effect) :
  count f (e :: t) = ((if f e then 1 else 0) + count f t)%nat.
Proof. unfold count; simpl; destruct (f e); reflexivity. Qed.

Lemma count_nil (f : effect -> bool) : count f [] = 0%nat.
Proof. reflexivity. Qed.

(** The text of a run that streams [cs] to the end. *)
Lemma streamed_text (cs : list (list byte)) :
  fst (decode_chunks new_TextDecoder cs)
    ++ fst (decode (snd (decode_chunks new_TextDecoder cs)) None false)
  = utf8_decode (List.concat cs).
Proof. apply decode_chunks_flush. Qed.

(** C1.  When the response is successful and its body delivers the
    chunks [cs] and then ends, the text displayed after [send] is the
    UTF-8 decoding of the concatenation of the chunks, however many
    chunks there are and wherever they are cut; this holds for both
    variants of the script. *)
Theorem send_stream_displays_decoding (res : Response) (cs : list (list byte)) :
  truthy prompt = true ->
  w (chat_request prompt) = Fulfilled res ->
  ok res = true ->
  body res = Some (mkStream cs None) ->
  displayed (send w p) = utf8_decode (List.concat cs)
  /\ displayed (Part000.send w p) = utf8_decode (List.concat cs).
Proof.
  intros H Hw Hok Hbody.
  split; run_send H p; rewrite Hw; cbn; rewrite Hok; cbn; rewrite Hbody; cbn;
    rewrite read_loop_run; cbn; apply streamed_text.
Qed.

(** C2.  When the trimmed value of the prompt is the empty string,
    [send] displays "Please enter a message." and issues no network
    request. *)
Theorem send_empty_prompt :
  prompt = [] ->
  displayed (send w p) = lit "Please enter a message."
  /\ requests (effects (send w p)) = [].
Proof.
  intros H.
  apply truthy_false in H.
  split; unfold_ops; cbn; rewrite H; reflexivity.
Qed.

(** C4.  For a response whose status is not in 200..299 and whose body
    text is [B], [send] displays "Error <status>: B", and the request it
    made stays the only one. *)
Theorem send_error_status (res : Response) (B : jsstring) :
  truthy prompt = true ->
  w (chat_request prompt) = Fulfilled res ->
  ok res = false ->
  text res = Fulfilled B ->
  displayed (send w p) = lit "Error " ++ of_number (status res) ++ lit ": " ++ B
  /\ requests (effects (send w p)) = [chat_request prompt].
Proof.
  intros H Hw Hok Htext.
  split; run_send H p; rewrite Hw; cbn; rewrite Hok; cbn; rewrite Htext;
    reflexivity.
Qed.

(** C6.  For a successful response without a body, [send] displays the
    fixed message "Streaming not supported by the browser/connection."
    and makes no second request. *)
Theorem send_no_body (res : Response) :
  truthy prompt = true ->
  w (chat_request prompt) = Fulfilled res ->
  ok res = true ->
  body res = None ->
  displayed (send w p)
    = lit "Streaming not supported by the browser/connection."
  /\ requests (effects (send w p)) = [chat_request prompt].
Proof.
  intros H Hw Hok Hbody.
  split; run_send H p; rewrite Hw; cbn; rewrite Hok; cbn; rewrite Hbody;
    reflexivity.
Qed.

(** C8.  With a non-empty trimmed prompt, [send] issues exactly one
    request: a POST to /chat/stream with the header
    Content-Type: application/json and, as body, the JSON text of the
    object whose only property [prompt] is the trimmed input. *)
Theorem send_single_request :
  truthy prompt = true ->
  requests (effects (send w p))
  = [mkRequest (lit "/chat/stream") (lit "POST")
               [(lit "Content-Type", lit "application/json")]
               (JSON_stringify [(lit "prompt", prompt)])].
Proof.
  intros H.
  change (mkRequest _ _ _ _) with (chat_request (trim (prompt_value p))).
  run_send H p; case_answer w;
    rewrite ?requests_app, ?requests_read_effects; reflexivity.
Qed.

Lemma token_remove_absent (tok : string) (l : list string) :
  existsb (String.eqb tok) (token_remove tok l) = false.
Proof.
  unfold token_remove.
  induction l as [|t l IH]; simpl; [reflexivity|].
  destruct (String.eqb tok t) eqn:E; simpl; [exact IH|].
  rewrite E; exact IH.
Qed.

Lemma shown_reason (e : jsval) :
  ToString (or_else (optional_message e) e)
  = match e with
    | VError name message => if truthy message then message else name
    | VString s => s
    | VUndefined => lit "undefined"
    | VNull => lit "null"
    end.
Proof.
  destruct e as [| |s|n m]; try reflexivity.
  destruct m as [|c m]; [|reflexivity].
  destruct n; reflexivity.
Qed.

Ltac count_effects :=
  repeat (rewrite count_cons || rewrite count_app || rewrite count_nil
          || rewrite count_read_effects by (intros; reflexivity));
  cbn; try reflexivity; try lia.

(** What the answers seen so far make of [raised]. *)
Ltac with_answers :=
  unfold raised;
  repeat match goal with
         | E : ?x = _ |- context [?x] => rewrite E; cbn
         end.

Ltac with_raised Hr :=
  revert Hr; with_answers; intros Hr;
  try discriminate Hr;
  try (injection Hr as Hr; subst).

(** C3, as the script has it.  A call that passes the validation
    re-enables the submit control exactly once and, on a page with a
    loading overlay, removes [show] from it exactly once, whichever way
    the request ends; afterwards the control is enabled and the overlay
    hidden (in the variant without overlay the control ends enabled
    too).  A call rejected for an empty prompt returns before the
    guarded block: it performs no cleanup action and leaves the control
    and the overlay as they were. *)
Theorem send_cleanup :
  if truthy prompt then
    cleanup_once p (send w p)
    /\ send_disabled (final_page (send w p)) = false
    /\ overlay_hidden (final_page (send w p)) = true
    /\ send_disabled (final_page (Part000.send w p)) = false
    /\ (1 <= count is_reenable (effects (Part000.send w p)))%nat
  else
    count is_reenable (effects (send w p)) = 0%nat
    /\ count is_hide (effects (send w p)) = 0%nat
    /\ send_disabled (final_page (send w p)) = send_disabled p
    /\ loading_classList (final_page (send w p)) = loading_classList p.
Proof.
  destruct (truthy prompt) eqn:H.
  - unfold cleanup_once, overlay_hidden.
    repeat split; run_send H p; case_answer w;
      rewrite ?token_remove_absent; try reflexivity; count_effects.
  - repeat split; unfold_ops; cbn; rewrite H; reflexivity.
Qed.

(** C5, as the script has it.  An error raised by the fetch, by reading
    the body text of a failed response, or by a read of the stream is
    caught, and the text displayed is "Network error: " followed by the
    error's message when that message is not empty; an error object
    with an empty message is shown by its name, and a thrown value that
    is no error object by its own string conversion. *)
Theorem send_network_error (e : jsval) :
  truthy prompt = true ->
  raised (w (chat_request prompt)) = Some e ->
  displayed (send w p)
  = lit "Network error: "
    ++ match e with
       | VError name message => if truthy message then message else name
       | VString s => s
       | VUndefined => lit "undefined"
       | VNull => lit "null"
       end.
Proof.
  intros H Hr.
  rewrite <- shown_reason.
  run_send H p; case_answer w; with_raised Hr; reflexivity.
Qed.

(** C7, as the script has it.  A call that passes the validation first
    clears the output area.  When nothing is thrown, every later write
    extends the text already there.  When an error is thrown, the
    writes before it extend one another and the [catch] clause then
    replaces the text by the network-error message. *)
Theorem send_output_writes :
  truthy prompt = true ->
  match raised (w (chat_request prompt)) with
  | None => cleared_then_appended (writes (effects (send w p))) = true
  | Some e =>
      exists ws,
        cleared_then_appended ([] :: ws) = true
        /\ writes (effects (send w p)) = [] :: ws ++ [catch_text e]
  end.
Proof.
  intros H.
  run_send H p; case_answer w; with_answers;
    rewrite ?writes_app; cbn; rewrite ?app_nil_r;
    try reflexivity; try (exists []; split; reflexivity);
    match goal with
    | |- context [read_effects _ _ ?cs] =>
        destruct (writes_read_effects cs [] new_TextDecoder) as [A L]
    end;
    try (eexists; split; [exact A | reflexivity]);
    rewrite append_only_app, A, L; cbn; rewrite prefixb_app; reflexivity.
Qed.

(** C9.  On a key-down event whose key is Enter, the listener runs
    [send] when Ctrl or Meta is held, and does nothing at all when
    neither is; a run of [send] always leaves effects, so the two cases
    differ. *)
Theorem keydown_enter (e : KeyboardEvent) :
  key e = lit "Enter" ->
  (if ctrlKey e || metaKey e then
     final_page (keydown_listener w e p) = final_page (send w p)
     /\ effects (keydown_listener w e p) = effects (send w p)
   else keydown_listener w e p = (Normal tt, p, []))
  /\ effects (send w p) <> [].
Proof.
  intros Hkey; split.
  - unfold keydown_listener.
    rewrite (proj2 (eqb_eq (key e) (lit "Enter")) Hkey).
    destruct (ctrlKey e || metaKey e); cbn [andb]; [|reflexivity].
    destruct (send w p) as [[c p'] t]; split; reflexivity.
  - destruct (truthy prompt) eqn:H.
    + run_send H p; case_answer w; discriminate.
    + unfold_ops; cbn; rewrite H; discriminate.
Qed.

(** C10.  Whatever the outcome, the value of the prompt field after
    [send] is the value before it, and the run reads the field exactly
    once; this holds for both variants of the script. *)
Theorem send_keeps_prompt :
  prompt_value (final_page (send w p)) = prompt_value p
  /\ count is_read_prompt (effects (send w p)) = 1%nat
  /\ prompt_value (final_page (Part000.send w p)) = prompt_value p
  /\ count is_read_prompt (effects (Part000.send w p)) = 1%nat.
Proof.
  destruct (truthy prompt) eqn:H.
  - repeat split; run_send H p; case_answer w;
      try reflexivity; count_effects.
  - repeat split; unfold_ops; cbn; rewrite H; reflexivity.
Qed.

End Runs.

(* ================================================================== *)
(** ** The runs on the sample pages *)

Import Samples.

Example of_number_400 : of_number 400 = lit "400".
Proof. reflexivity. Qed.

Example trim_hi : trim (lit "  hi there ") = lit "hi there".
Proof. reflexivity. Qed.

(** A euro sign cut after its second byte: the first call keeps the two
    bytes back, the second call completes the character. *)
Example decode_cut_euro :
  let '(s1, t1) := decode new_TextDecoder (Some [xe2; x82]) true in
  let '(s2, _) := decode t1 (Some [xac]) true in
  (s1, s2) = ([], [0x20AC]).
Proof. reflexivity. Qed.

(** Decoding each chunk on its own would show replacement characters
    instead. *)
Example decode_per_chunk_differs :
  utf8_decode [xe2; x82] ++ utf8_decode [xac] = [0xFFFD; 0xFFFD].
Proof. reflexivity. Qed.

(** A byte order mark is dropped once, even when a chunk boundary cuts
    it, and a later U+FEFF is kept. *)
Example decode_cut_BOM :
  fst (decode_chunks new_TextDecoder [[xef; xbb]; [xbf; x41; xef; xbb; xbf]])
  = [0x41; 0xFEFF].
Proof. reflexivity. Qed.

(** A sequence broken by an ASCII byte: the broken part becomes U+FFFD
    and the restored byte is decoded on its own. *)
Example decode_restores_byte : utf8_decode [xe2; x82; x41] = [0xFFFD; 0x41].
Proof. reflexivity. Qed.

(** An encoded surrogate is rejected byte by byte. *)
Example decode_surrogate :
  utf8_decode [xed; xa0; x80] = [0xFFFD; 0xFFFD; 0xFFFD].
Proof. reflexivity. Qed.

(** The payload for a prompt holding a quote, a line feed and a lone
    surrogate: each is escaped. *)
Example JSON_stringify_escapes :
  JSON_stringify [(lit "prompt", [97; 34; 10; 0xD800])]
  = [123; 34] ++ lit "prompt" ++ [34; 58; 34; 97; 92; 34; 92; 110]
      ++ [92] ++ lit "ud800" ++ [34; 125].
Proof. reflexivity. Qed.

(** In the variant without overlay, a failed status re-enables the submit
    control in the branch and again in the [finally] clause. *)
Example part000_reenables_twice :
  count is_reenable (effects (Part000.send (answer bad_request) hi_page)) = 2%nat.
Proof. reflexivity. Qed.

(** Enter alone leaves the page untouched. *)
Example keydown_plain_enter :
  keydown_listener timeout_world (enter false false) hi_page
  = (Normal tt, hi_page, []).
Proof. reflexivity. Qed.

Lemma send_stream_displays_decoding_witness :
  displayed (send (answer euro_response) hi_page) = [0x20AC; 0xD83D; 0xDE00]
  /\ displayed (Part000.send (answer euro_response) hi_page)
     = [0x20AC; 0xD83D; 0xDE00].
Proof.
  apply (send_stream_displays_decoding (answer euro_response) hi_page
           euro_response euro_chunks); reflexivity.
Defined.

Lemma send_empty_prompt_witness :
  displayed (send timeout_world blank_page) = lit "Please enter a message."
  /\ requests (effects (send timeout_world blank_page)) = [].
Proof.
  apply (send_empty_prompt timeout_world blank_page); reflexivity.
Defined.

Lemma send_error_status_witness :
  displayed (send (answer bad_request) hi_page) = lit "Error 400: bad request"
  /\ requests (effects (send (answer bad_request) hi_page))
     = [chat_request (lit "hi")].
Proof.
  apply (send_error_status (answer bad_request) hi_page bad_request
           (lit "bad request")); reflexivity.
Defined.

Lemma send_no_body_witness :
  displayed (send (answer no_body) hi_page)
    = lit "Streaming not supported by the browser/connection."
  /\ requests (effects (send (answer no_body) hi_page))
     = [chat_request (lit "hi")].
Proof.
  apply (send_no_body (answer no_body) hi_page no_body); reflexivity.
Defined.

Lemma send_single_request_witness :
  requests (effects (send timeout_world hi_page))
  = [mkRequest (lit "/chat/stream") (lit "POST")
               [(lit "Content-Type", lit "application/json")]
               [123; 34; 112; 114; 111; 109; 112; 116; 34; 58;
                34; 104; 105; 34; 125]].
Proof.
  apply (send_single_request timeout_world hi_page); reflexivity.
Defined.

Lemma send_network_error_witness :
  displayed (send timeout_world hi_page) = lit "Network error: timeout".
Proof.
  apply (send_network_error timeout_world hi_page
           (VError (lit "Error") (lit "timeout"))); reflexivity.
Defined.

Lemma send_output_writes_witness :
  cleared_then_appended
    (writes (effects (send (answer euro_response) hi_page))) = true.
Proof.
  apply (send_output_writes (answer euro_response) hi_page); reflexivity.
Defined.

Lemma keydown_enter_witness :
  (final_page (keydown_listener timeout_world (enter false true) hi_page)
     = final_page (send timeout_world hi_page)
   /\ effects (keydown_listener timeout_world (enter false true) hi_page)
      = effects (send timeout_world hi_page))
  /\ effects (send timeout_world hi_page) <> [].
Proof.
  apply (keydown_enter timeout_world hi_page (enter false true)); reflexivity.
Defined.

(** C3 as stated fails on the empty-input exit: the call returns before
    the guarded block, so neither cleanup action runs. *)
Lemma send_cleanup_counterexample :
  ~ cleanup_once blank_page (send timeout_world blank_page).
Proof. intros [H _]; vm_compute in H; discriminate H. Qed.

(** C5 as stated fails for an error whose message is empty: the script
    falls back on the error itself, which prints as its name. *)
Lemma send_network_error_counterexample :
  displayed (send silent_world hi_page)
  <> lit "Network error: " ++ message_text silent_error.
Proof. vm_compute; discriminate. Qed.

(** C7 as stated fails when a read fails after some text was shown: the
    [catch] clause overwrites "Hi" with the error message. *)
Lemma send_output_writes_counterexample :
  cleared_then_appended
    (writes (effects (send (answer broken_response) hi_page))) = false.
Proof. reflexivity. Qed.

(* ================================================================== *)
(** ** Further properties of the script *)

Section Tokens.

Lemma token_remove_add (tok : string) (l : list string) :
  token_remove tok (token_add tok l) = token_remove tok l.
Proof.
  unfold token_add, token_remove.
  destruct (existsb (String.eqb tok) l); [reflexivity|].
  rewrite filter_app; simpl.
  rewrite String.eqb_refl; simpl.
  apply app_nil_r.
Qed.

Lemma token_remove_idem (tok : string) (l : list string) :
  token_remove tok (token_remove tok l) = token_remove tok l.
Proof.
  unfold token_remove.
  induction l as [|t l IH]; simpl; [reflexivity|].
  destruct (String.eqb tok t) eqn:E; simpl; [exact IH|].
  rewrite E; simpl; rewrite IH; reflexivity.
Qed.

Lemma token_remove_missing (tok : string) (l : list string) :
  existsb (String.eqb tok) l = false -> token_remove tok l = l.
Proof.
  unfold token_remove.
  induction l as [|t l IH]; simpl; [reflexivity|].
  destruct (String.eqb tok t); simpl; [discriminate|].
  intros H; rewrite (IH H); reflexivity.
Qed.

End Tokens.

Section Loop.

Lemma in_flight_read_effects (cs : list (list byte)) :
  forall old t, forallb in_flight (read_effects old t cs) = true.
Proof.
  induction cs as [|c cs IH]; intros old t; [reflexivity|].
  change (read_effects old t (c :: cs))
    with (let '(s, t1) := decode t (Some c) true in
          ReaderRead :: SetTextContent (old ++ s) :: SetScrollTop
            :: read_effects (old ++ s) t1 cs).
  destruct (decode t (Some c) true) as [s t1]; simpl; apply IH.
Qed.

(** The loop reads once per chunk and once more to learn that the stream
    is over; it writes and scrolls once per chunk. *)
Lemma tally_read_effects (cs : list (list byte)) :
  forall old t,
    count is_read (read_effects old t cs) = S (List.length cs)
    /\ count is_scroll (read_effects old t cs) = List.length cs
    /\ List.length (writes (read_effects old t cs)) = List.length cs.
Proof.
  induction cs as [|c cs IH]; intros old t; [repeat split|].
  change (read_effects old t (c :: cs))
    with (let '(s, t1) := decode t (Some c) true in
          ReaderRead :: SetTextContent (old ++ s) :: SetScrollTop
            :: read_effects (old ++ s) t1 cs).
  destruct (decode t (Some c) true) as [s t1].
  destruct (IH (old ++ s) t1) as [A [B C]].
  unfold count in *; simpl; rewrite A, B, C; repeat split.
Qed.

End Loop.

Section Cycle.

Variable w : world.
Variable p : page.

Local Abbreviation prompt := (trim (prompt_value p)).

(** Split on a response already known: failed status (body text read or
    not), no body, stream ending or failing. *)
Ltac case_response res :=
  destruct (ok res) eqn:?; cbn;
  [ let st := fresh "stream" in
    destruct (body res) as [st|] eqn:?; cbn;
    [ rewrite read_loop_run; destruct (failure st) eqn:?; cbn | ]
  | destruct (text res) eqn:?; cbn ].

Ltac tally :=
  repeat (rewrite count_cons || rewrite count_app || rewrite count_nil);
  try match goal with
      | |- context [read_effects ?old ?t ?cs] =>
          let A := fresh in
          let B := fresh in
          let C := fresh in
          destruct (tally_read_effects cs old t) as [A [B C]];
          rewrite ?A, ?B, ?C;
          rewrite ?(count_read_effects is_reenable),
            ?(count_read_effects is_res_text) by (intros; reflexivity)
      end;
  cbn; try reflexivity; try lia.

Lemma split_tail (r : list effect) (x : effect) (tail : list effect) :
  r ++ x :: tail = (r ++ [x]) ++ tail.
Proof. rewrite <- app_assoc; reflexivity. Qed.

(** The page a validated call leaves: the prompt as it was, the control
    enabled, the overlay without [show]. *)
Lemma validated_final_page :
  truthy prompt = true ->
  final_page (send w p)
  = mkPage (prompt_value p) (displayed (send w p)) false
           (option_map (token_remove "show") (loading_classList p)).
Proof.
  intros H.
  run_send H p; case_answer w; rewrite ?token_remove_add; reflexivity.
Qed.

Lemma rejected_final_page :
  truthy prompt = false ->
  send w p
  = (Return, with_text p (lit "Please enter a message."),
     [ReadPromptValue; SetTextContent (lit "Please enter a message.")]).
Proof. intros H; unfold_ops; cbn; rewrite H; reflexivity. Qed.


(** X2.  In a call that passes the validation the request is issued
    after the submit control was disabled and the overlay shown, and
    everything between the request and the cleanup only reads the answer
    or updates the output area: the control is not touched again before
    the final re-enabling, which with the hiding of the overlay ends the
    run. *)
Theorem send_request_while_disabled :
  truthy prompt = true ->
  exists mid,
    forallb in_flight mid = true
    /\ effects (send w p)
       = [ReadPromptValue; SetTextContent []; SetDisabled true]
           ++ overlay_effect p (ClassListAdd "show")
           ++ Fetch (chat_request prompt) :: mid
           ++ SetDisabled false :: overlay_effect p (ClassListRemove "show").
Proof.
  intros H.
  unfold overlay_effect.
  run_send H p; case_answer w;
    try rewrite (split_tail _ (SetTextContent _));
    try rewrite (split_tail _ SetScrollTop);
    first [ eexists; split; [|reflexivity]
          | eexists [_]; split; [|reflexivity]
          | eexists [_; _]; split; [|reflexivity] ];
    rewrite ?forallb_app, ?in_flight_read_effects; reflexivity.
Qed.

(** X3.  Reads and scrolls of a streamed answer: the reader is read once
    per chunk and once more for the end (or the failure) of the stream;
    the output area is scrolled after each chunk and, when the stream
    ended well, once more after the flush. *)
Theorem send_stream_tally (res : Response) (stream : ReadableStream) :
  truthy prompt = true ->
  w (chat_request prompt) = Fulfilled res ->
  ok res = true ->
  body res = Some stream ->
  count is_read (effects (send w p)) = S (List.length (chunks stream))
  /\ count is_scroll (effects (send w p))
     = (List.length (chunks stream)
        + match failure stream with None => 1 | Some _ => 0 end)%nat.
Proof.
  intros H Hw Hok Hbody.
  split; run_send H p; rewrite Hw; cbn; rewrite Hok; cbn; rewrite Hbody; cbn;
    rewrite read_loop_run; destruct (failure stream); cbn; tally.
Qed.

(** X4.  The body text of a response is read exactly when its status is
    not ok, and then the stream is never read; an ok response is never
    read as text. *)
Theorem send_reads_text_on_failure_only (res : Response) :
  truthy prompt = true ->
  w (chat_request prompt) = Fulfilled res ->
  if ok res then count is_res_text (effects (send w p)) = 0%nat
  else count is_res_text (effects (send w p)) = 1%nat
       /\ count is_read (effects (send w p)) = 0%nat.
Proof.
  intros H Hw.
  destruct (ok res) eqn:Hok; [|split];
    run_send H p; rewrite Hw; cbn; rewrite Hok; cbn;
    try (destruct (body res) as [st|]; cbn;
         [rewrite read_loop_run; destruct (failure st); cbn|]);
    try (destruct (text res); cbn);
    tally.
Qed.

(** X5.  The variant without overlay re-enables the submit control twice
    when it returns early (failed status whose text was read, or no
    body): once in the branch and once in [finally]; on every other path
    after validation it re-enables once. *)
Theorem part000_reenable_tally :
  truthy prompt = true ->
  count is_reenable (effects (Part000.send w p))
  = match w (chat_request prompt) with
    | Rejected _ => 1%nat
    | Fulfilled res =>
        if negb (ok res) then
          match text res with Fulfilled _ => 2%nat | Rejected _ => 1%nat end
        else
          match body res with None => 2%nat | Some _ => 1%nat end
    end.
Proof.
  intros H.
  run_send H p; case_answer w; tally.
Qed.

End Cycle.

Section Trimming.

Lemma trimStart_head (s : jsstring) :
  forall c r, trimStart s = c :: r -> is_white_space c = false.
Proof.
  induction s as [|x s IH]; intros c r; simpl; [discriminate|].
  destruct (is_white_space x) eqn:E; [apply IH|].
  intros H; inversion H; subst; exact E.
Qed.

Lemma trimEnd_split (t : jsstring) :
  exists ws, t = trimEnd t ++ ws /\ forallb is_white_space ws = true.
Proof.
  unfold trimEnd.
  destruct (trimStart_suffix (rev t)) as [ws [E W]].
  exists (rev ws); split.
  - rewrite <- rev_app_distr, <- E, rev_involutive; reflexivity.
  - rewrite forallb_rev'; exact W.
Qed.

Lemma trimEnd_last (t : jsstring) :
  forall c r, trimEnd t = c :: r -> is_white_space (last r c) = false.
Proof.
  unfold trimEnd; intros c r H.
  destruct (trimStart (rev t)) as [|x u] eqn:E; [discriminate|].
  apply trimStart_head in E.
  simpl in H.
  assert (L : last (c :: r) c = x).
  { rewrite <- H; apply last_last. }
  rewrite <- E, <- L.
  destruct r; [reflexivity|].
  f_equal; symmetry; apply (@last_cons c (l :: r) c).
Qed.

(** X6.  The prompt that [send] works with is the value of the field
    without its surrounding white space and nothing else: the value is
    white space, then the trimmed prompt, then white space, and a
    non-empty trimmed prompt begins and ends with a unit that is not
    white space (white space inside it is kept). *)
Theorem trim_strips_surroundings (s : jsstring) :
  exists ws1 ws2,
    s = ws1 ++ trim s ++ ws2
    /\ forallb is_white_space ws1 = true
    /\ forallb is_white_space ws2 = true
    /\ match trim s with
       | [] => True
       | c :: r =>
           is_white_space c = false /\ is_white_space (last r c) = false
       end.
Proof.
  destruct (trimStart_suffix s) as [ws1 [E1 W1]].
  destruct (trimEnd_split (trimStart s)) as [ws2 [E2 W2]].
  exists ws1, ws2; unfold trim; repeat split; try assumption.
  - rewrite <- E2; exact E1.
  - destruct (trimEnd (trimStart s)) as [|c r] eqn:T; [exact I|].
    split; [|apply (trimEnd_last _ _ _ T)].
    simpl in E2.
    apply (trimStart_head s c (r ++ ws2) E2).
Qed.

End Trimming.

Section AsciiText.

Lemma process_byte_ascii (d : Utf8.decoder) (b : byte) :
  Utf8.bytes_needed d = 0 -> is_ascii b = true ->
  Utf8.process_byte d b = (d, [Byte.to_N b]).
Proof.
  unfold is_ascii, Utf8.process_byte, Utf8.handler, Utf8.lead, Utf8.between.
  intros Hd Hb; rewrite Hd; simpl.
  apply N.ltb_lt in Hb.
  assert (E : (Byte.to_N b <=? 127) = true) by (apply N.leb_le; lia).
  assert (E0 : (0 <=? Byte.to_N b) = true) by (apply N.leb_le; lia).
  rewrite E, E0; reflexivity.
Qed.

Lemma process_queue_ascii (bs : list byte) :
  forall d,
    Utf8.bytes_needed d = 0 -> forallb is_ascii bs = true ->
    Utf8.process_queue d bs = (d, map Byte.to_N bs).
Proof.
  induction bs as [|b bs IH]; intros d Hd H; simpl; [reflexivity|].
  simpl in H; apply andb_true_iff in H; destruct H as [Hb Hbs].
  rewrite (process_byte_ascii d b Hd Hb), (IH d Hd Hbs); reflexivity.
Qed.

Lemma serialize_ascii (l : list byte) :
  forall seen,
    forallb is_ascii l = true ->
    snd (Utf8.serialize seen (map Byte.to_N l)) = map Byte.to_N l.
Proof.
  induction l as [|b l IH]; intros seen H; simpl; [reflexivity|].
  simpl in H; apply andb_true_iff in H; destruct H as [Hb Hl].
  unfold is_ascii in Hb; apply N.ltb_lt in Hb.
  assert (E1 : (Byte.to_N b =? 0xFEFF) = false) by (apply N.eqb_neq; lia).
  assert (E2 : (Byte.to_N b <? 0x10000) = true) by (apply N.ltb_lt; lia).
  rewrite E1, andb_false_r.
  specialize (IH true Hl).
  destruct (Utf8.serialize true (map Byte.to_N l)) as [s r]; simpl in *.
  unfold Utf8.utf16; rewrite E2, IH; reflexivity.
Qed.

(** Bytes below 0x80 decode to themselves. *)
Lemma utf8_decode_ascii (bs : list byte) :
  forallb is_ascii bs = true -> utf8_decode bs = map Byte.to_N bs.
Proof.
  intros H.
  unfold utf8_decode, decode, new_TextDecoder; simpl.
  rewrite (process_queue_ascii bs Utf8.fresh eq_refl H); simpl.
  rewrite app_nil_r.
  pose proof (serialize_ascii bs false H) as S.
  destruct (Utf8.serialize false (map Byte.to_N bs)); exact S.
Qed.

Lemma forallb_concat (f : byte -> bool) (cs : list (list byte)) :
  forallb (forallb f) cs = true -> forallb f (List.concat cs) = true.
Proof.
  induction cs as [|c cs IH]; simpl; [reflexivity|].
  intros H; apply andb_true_iff in H; destruct H as [Hc Hcs].
  rewrite forallb_app, Hc, (IH Hcs); reflexivity.
Qed.

(** X7.  When every byte of a streamed answer is ASCII, the text
    displayed at the end is those bytes, one code unit per byte, in
    order, whatever the chunking. *)
Theorem send_ascii_stream (w : world) (p : page) (res : Response)
    (cs : list (list byte)) :
  truthy (trim (prompt_value p)) = true ->
  w (chat_request (trim (prompt_value p))) = Fulfilled res ->
  ok res = true ->
  body res = Some (mkStream cs None) ->
  forallb (forallb is_ascii) cs = true ->
  displayed (send w p) = map Byte.to_N (List.concat cs).
Proof.
  intros H Hw Hok Hbody Hascii.
  rewrite <- (utf8_decode_ascii _ (forallb_concat _ _ Hascii)).
  run_send H p; rewrite Hw; cbn; rewrite Hok; cbn; rewrite Hbody; cbn;
    rewrite read_loop_run; cbn; apply streamed_text.
Qed.

End AsciiText.

Section StatusText.

Lemma decimal_value_snoc (ds : jsstring) (d : N) :
  decimal_value (ds ++ [d]) = decimal_value ds * 10 + (d - 48).
Proof. unfold decimal_value; rewrite fold_left_app; reflexivity. Qed.

(** With enough fuel, [digits] puts the decimal digits of [n] in front of
    the accumulator. *)
Lemma digits_spec (fuel : nat) :
  forall n acc,
    n < 2 ^ N.of_nat fuel ->
    exists ds,
      digits fuel n acc = ds ++ acc
      /\ forallb is_digit ds = true
      /\ decimal_value ds = n.
Proof.
  induction fuel as [|fuel IH]; intros n acc Hn.
  - exists []; simpl in *; repeat split.
    unfold decimal_value; simpl; lia.
  - rewrite Nat2N.inj_succ, N.pow_succ_r' in Hn.
    remember (2 ^ N.of_nat fuel) as P eqn:HP; clear HP.
    pose proof (N.div_mod n 10 ltac:(lia)) as Hdm.
    pose proof (N.mod_lt n 10 ltac:(lia)) as Hlt.
    cbn [digits].
    remember (n mod 10) as r eqn:Hr; clear Hr.
    remember (n / 10) as q eqn:Hq; clear Hq.
    assert (Hd : is_digit (48 + r) = true).
    { unfold is_digit; apply andb_true_iff; split; apply N.leb_le; lia. }
    destruct (q =? 0) eqn:E.
    + apply N.eqb_eq in E.
      exists [48 + r]; repeat split.
      * cbn [forallb]; rewrite Hd; reflexivity.
      * unfold decimal_value; cbn [fold_left]; lia.
    + assert (Hq : q < P) by lia.
      destruct (IH q ((48 + r) :: acc) Hq) as [ds [A [B C]]].
      exists (ds ++ [48 + r]); repeat split.
      * rewrite A, <- app_assoc; reflexivity.
      * rewrite forallb_app, B; cbn [forallb]; rewrite Hd; reflexivity.
      * rewrite decimal_value_snoc, C; lia.
Qed.

Lemma of_number_spec (n : N) :
  forallb is_digit (of_number n) = true /\ decimal_value (of_number n) = n.
Proof.
  unfold of_number.
  assert (Hn : n < 2 ^ N.of_nat (S (N.to_nat (N.log2 n)))).
  { rewrite Nat2N.inj_succ, N2Nat.id.
    destruct n as [|q]; [reflexivity|].
    apply N.log2_spec; reflexivity. }
  destruct (digits_spec _ n [] Hn) as [ds [A [B C]]].
  rewrite A, app_nil_r; split; assumption.
Qed.

(** X8.  In the error text for a failed status, what stands between
    "Error " and ": " is the status written in decimal digits: reading
    the digits back gives the status. *)
Theorem send_error_status_decimal (w : world) (p : page) (res : Response)
    (B : jsstring) :
  truthy (trim (prompt_value p)) = true ->
  w (chat_request (trim (prompt_value p))) = Fulfilled res ->
  ok res = false ->
  text res = Fulfilled B ->
  exists ds,
    displayed (send w p) = lit "Error " ++ ds ++ lit ": " ++ B
    /\ forallb is_digit ds = true
    /\ decimal_value ds = status res.
Proof.
  intros H Hw Hok Htext.
  exists (of_number (status res)).
  destruct (of_number_spec (status res)) as [D V].
  repeat split; try assumption.
  run_send H p; rewrite Hw; cbn; rewrite Hok; cbn; rewrite Htext; reflexivity.
Qed.

End StatusText.

Section Composition.

Variable w : world.

#[local] Arguments send : simpl never.
#[local] Arguments Part000.send : simpl never.

(** The text displayed and the requests made depend on the page through
    the prompt value only. *)
Lemma displayed_by_prompt (p q : page) :
  prompt_value q = prompt_value p ->
  displayed (send w q) = displayed (send w p)
  /\ requests (effects (send w q)) = requests (effects (send w p)).
Proof.
  intros E.
  destruct (truthy (trim (prompt_value p))) eqn:H.
  - split; unfold_ops; cbn; rewrite E, H; cbn;
      destruct (loading_classList p), (loading_classList q); cbn;
      case_answer w; rewrite ?read_loop_run; cbn;
      rewrite ?requests_app, ?requests_read_effects; reflexivity.
  - split; unfold_ops; cbn; rewrite E, H; reflexivity.
Qed.

(** X9.  What [send] displays and requests does not depend on what the
    output area held, on whether the submit control was disabled, or on
    the overlay: pages with the same prompt value give the same text and
    the same requests. *)
Theorem send_ignores_previous_output (p : page) (old : jsstring)
    (disabled : bool) (classes : option (list string)) :
  displayed (send w (mkPage (prompt_value p) old disabled classes))
    = displayed (send w p)
  /\ requests (effects (send w (mkPage (prompt_value p) old disabled classes)))
     = requests (effects (send w p)).
Proof. apply displayed_by_prompt; reflexivity. Qed.

(** X10.  After a call that passes the validation, the class list of the
    overlay is the one before the call without [show]; its other classes
    are kept, in order.  A class list that did not hold [show] is
    therefore restored exactly. *)
Theorem send_overlay_classes (p : page) (l : list string) :
  truthy (trim (prompt_value p)) = true ->
  loading_classList p = Some l ->
  loading_classList (final_page (send w p)) = Some (token_remove "show" l)
  /\ (if existsb (String.eqb "show") l then True
      else loading_classList (final_page (send w p)) = Some l).
Proof.
  intros H Hl.
  rewrite (validated_final_page w p H); cbn.
  rewrite Hl; cbn; split; [reflexivity|].
  destruct (existsb (String.eqb "show") l) eqn:E; [exact I|].
  rewrite (token_remove_missing _ _ E); reflexivity.
Qed.

(** X11.  Calling [send] again on the page it left, against the same
    network, leaves the same page: nothing of a finished call survives
    but what it displayed, and that is displayed again. *)
Theorem send_twice (p : page) :
  final_page (send w (final_page (send w p))) = final_page (send w p).
Proof.
  destruct (truthy (trim (prompt_value p))) eqn:H.
  - pose proof (validated_final_page w p H) as F.
    set (q := final_page (send w p)) in *.
    assert (Eq : prompt_value q = prompt_value p) by (rewrite F; reflexivity).
    assert (Hq : truthy (trim (prompt_value q)) = true) by (rewrite Eq; exact H).
    rewrite (validated_final_page w q Hq).
    destruct (displayed_by_prompt p q Eq) as [D _].
    rewrite D, Eq.
    rewrite F at 1 2; cbn.
    f_equal.
    destruct (loading_classList p); cbn; [|reflexivity].
    rewrite token_remove_idem; reflexivity.
  - rewrite (rejected_final_page w p H); cbn.
    rewrite rejected_final_page by exact H.
    reflexivity.
Qed.

(** X12.  The two variants of the script display the same text, issue
    the same requests and write the same sequence of texts; the variant
    without overlay leaves the page of the other one, except that it
    does not touch the overlay. *)
Theorem variants_agree (p : page) :
  final_page (Part000.send w p)
  = mkPage (prompt_value p) (displayed (send w p))
           (send_disabled (final_page (send w p))) (loading_classList p)
  /\ requests (effects (Part000.send w p)) = requests (effects (send w p))
  /\ writes (effects (Part000.send w p)) = writes (effects (send w p)).
Proof.
  destruct (truthy (trim (prompt_value p))) eqn:H.
  - repeat split; run_send H p; case_answer w; rewrite ?read_loop_run; cbn;
      rewrite ?requests_app, ?requests_read_effects, ?writes_app;
      try reflexivity;
      match goal with
      | E : loading_classList p = _ |- _ => rewrite <- E; reflexivity
      end.
  - repeat split; unfold_ops; cbn; rewrite H; reflexivity.
Qed.

(** X13.  A key-down event for any key other than Enter does nothing,
    with or without a modifier. *)
Theorem keydown_other_key (p : page) (e : KeyboardEvent) :
  key e <> lit "Enter" ->
  keydown_listener w e p = (Normal tt, p, []).
Proof.
  intros Hk; unfold keydown_listener.
  destruct (JsString.eqb (key e) (lit "Enter")) eqn:E; [|reflexivity].
  apply eqb_eq in E; contradiction.
Qed.

End Composition.

Section Progress.

Variable w : world.
Variable p : page.

Lemma prefixb_refl (a : jsstring) : prefixb a a = true.
Proof. induction a; simpl; [|rewrite N.eqb_refl]; auto. Qed.

Lemma prefixb_trans (a : jsstring) :
  forall b c, prefixb a b = true -> prefixb b c = true -> prefixb a c = true.
Proof.
  induction a as [|x a IH]; intros b c Hab Hbc; [reflexivity|].
  destruct b as [|y b]; [discriminate|].
  destruct c as [|z c]; [discriminate|].
  simpl in *.
  apply andb_true_iff in Hab; destruct Hab as [Exy Hab].
  apply andb_true_iff in Hbc; destruct Hbc as [Eyz Hbc].
  apply N.eqb_eq in Exy; apply N.eqb_eq in Eyz; subst.
  rewrite N.eqb_refl; simpl; apply (IH b c Hab Hbc).
Qed.

(** In a chain of extensions every text is a prefix of the last one. *)
Lemma chain_prefix_last (ws : list jsstring) :
  forall prev,
    append_only prev ws = true ->
    prefixb prev (last ws prev) = true
    /\ forallb (fun s => prefixb s (last ws prev)) ws = true.
Proof.
  induction ws as [|x ws IH]; intros prev H.
  - split; [apply prefixb_refl | reflexivity].
  - change (append_only prev (x :: ws))
      with (prefixb prev x && append_only x ws) in H.
    apply andb_true_iff in H; destruct H as [Hx Hws].
    destruct (IH x Hws) as [A B].
    rewrite (last_cons x ws prev).
    split; [apply (prefixb_trans prev x _ Hx A)|].
    cbn [forallb]; rewrite A, B; reflexivity.
Qed.

(** X14.  When nothing is thrown during a call that passes the
    validation, every text the call writes to the output area is a
    beginning of the text displayed at the end: what the user has read
    is never taken back. *)
Theorem send_shows_prefixes :
  truthy (trim (prompt_value p)) = true ->
  raised (w (chat_request (trim (prompt_value p)))) = None ->
  forallb (fun s => prefixb s (displayed (send w p)))
          (writes (effects (send w p))) = true.
Proof.
  intros H Hr.
  revert Hr; unfold raised.
  run_send H p; case_answer w;
    repeat match goal with
           | E : ?x = _ |- context [?x] => rewrite E; cbn
           end;
    intros Hr; try discriminate Hr;
    rewrite ?writes_app; cbn; rewrite ?prefixb_refl; try reflexivity.
  all: match goal with
       | |- context [read_effects _ _ ?cs] =>
           destruct (writes_read_effects cs [] new_TextDecoder) as [A L]
       end.
  all: rewrite app_nil_r.
  all: match goal with
       | |- forallb _ (?ws ++ [?final]) = true =>
           assert (C : append_only [] (ws ++ [final]) = true)
             by (rewrite append_only_app, A, L; cbn;
                 rewrite prefixb_app; reflexivity);
           apply chain_prefix_last in C; destruct C as [_ C];
           rewrite last_last in C; exact C
       end.
Qed.

End Progress.

Section Validation.

Variable w : world.
Variable p : page.

(** X15.  [send] issues no request exactly when the value of the prompt
    field is empty or made of white space only. *)
Theorem send_silent_iff_blank :
  requests (effects (send w p)) = []
  <-> forallb is_white_space (prompt_value p) = true.
Proof.
  rewrite <- trim_nil_iff, <- truthy_false.
  destruct (truthy (trim (prompt_value p))) eqn:H.
  - split; [|discriminate].
    run_send H p; case_answer w;
      rewrite ?requests_app, ?requests_read_effects; discriminate.
  - split; [reflexivity|].
    intros _; unfold_ops; cbn; rewrite H; reflexivity.
Qed.

End Validation.

(* ================================================================== *)
(** ** Further runs on the sample pages *)

Import MoreSamples.

Lemma send_request_while_disabled_witness :
  exists mid,
    forallb in_flight mid = true
    /\ effects (send (answer bad_request) hi_page)
       = [ReadPromptValue; SetTextContent []; SetDisabled true;
          ClassListAdd "show"; Fetch (chat_request (lit "hi"))]
           ++ mid ++ [SetDisabled false; ClassListRemove "show"].
Proof.
  apply (send_request_while_disabled (answer bad_request) hi_page); reflexivity.
Defined.

Lemma send_stream_tally_witness :
  count is_read (effects (send (answer broken_response) hi_page)) = 2%nat
  /\ count is_scroll (effects (send (answer broken_response) hi_page)) = 1%nat.
Proof.
  apply (send_stream_tally (answer broken_response) hi_page broken_response
           (mkStream [[x48; x69]]
                     (Some (VError (lit "TypeError") (lit "network error")))));
    reflexivity.
Defined.

Lemma send_reads_text_on_failure_only_witness :
  count is_res_text (effects (send (answer bad_request) hi_page)) = 1%nat
  /\ count is_read (effects (send (answer bad_request) hi_page)) = 0%nat.
Proof.
  apply (send_reads_text_on_failure_only (answer bad_request) hi_page
           bad_request); reflexivity.
Defined.

Lemma part000_reenable_tally_witness :
  count is_reenable (effects (Part000.send (answer no_body) hi_page)) = 2%nat.
Proof.
  apply (part000_reenable_tally (answer no_body) hi_page); reflexivity.
Defined.

Lemma send_ascii_stream_witness :
  displayed (send (answer hello_response) hi_page) = lit "Hello".
Proof.
  apply (send_ascii_stream (answer hello_response) hi_page hello_response
           [[x48; x65]; [x6c; x6c; x6f]]); reflexivity.
Defined.

Lemma send_error_status_decimal_witness :
  exists ds,
    displayed (send (answer bad_request) hi_page)
      = lit "Error " ++ ds ++ lit ": " ++ lit "bad request"
    /\ forallb is_digit ds = true
    /\ decimal_value ds = 400.
Proof.
  apply (send_error_status_decimal (answer bad_request) hi_page bad_request
           (lit "bad request")); reflexivity.
Defined.

Lemma send_overlay_classes_witness :
  loading_classList (final_page (send timeout_world hi_page))
    = Some ["overlay"%string]
  /\ loading_classList (final_page (send timeout_world hi_page))
     = Some ["overlay"%string].
Proof.
  apply (send_overlay_classes timeout_world hi_page ["overlay"%string]);
    reflexivity.
Defined.

Lemma keydown_other_key_witness :
  keydown_listener timeout_world ctrl_a hi_page = (Normal tt, hi_page, []).
Proof.
  apply (keydown_other_key timeout_world hi_page ctrl_a); discriminate.
Defined.

Lemma send_shows_prefixes_witness :
  forallb (fun s => prefixb s [0x20AC; 0xD83D; 0xDE00])
          (writes (effects (send (answer euro_response) hi_page))) = true.
Proof.
  apply (send_shows_prefixes (answer euro_response) hi_page); reflexivity.
Defined.
